(** * example.py: calculate_average, find_user, process_data

    A shallow embedding of the three functions of [example.py] together
    with the part of the Python object model they touch:

    - values: [None], [int] (unbounded, [Z]), [float] (IEEE 754 binary64,
      [spec_float] at precision 53 and maximal exponent 1024), [str], and
      references to the mutable objects [list] and [dict];
    - a heap of mutable objects addressed by location, so that object
      identity, aliasing and in-place updates ([list.append]) are explicit;
    - outcomes: a returned value or a raised exception.

    Every function is a computation [heap -> outcome * heap]. *)

From Stdlib Require Import ZArith SpecFloat Ascii String.
From stdpp Require Import gmap strings list fin_maps.

Local Open Scope Z_scope.

(** ** Values and objects *)

Definition loc := positive.

(** Python numbers of the two built-in kinds the functions meet. *)
Inductive num :=
  | NInt (z : Z)
  | NFloat (f : spec_float).

Inductive val :=
  | VNone
  | VNum (n : num)
  | VStr (s : string)
  | VRef (l : loc).

(** Mutable objects.  A dict is keyed by field name; a key that is not a
    string can never be found by the subscript ['id'], so such keys are
    left out. *)
Inductive obj :=
  | OList (items : list val)
  | ODict (fields : gmap string val).

Abbreviation heap := (gmap loc obj).

Inductive exn :=
  | ZeroDivisionError
  | OverflowError
  | TypeError
  | KeyError
  | AttributeError.

(** [Undef] marks what has no counterpart in a running Python program (a
    reference to no object) or lies outside the fragment modelled here
    (iterating a str or a dict, deep comparison of two distinct
    containers). *)
Inductive outcome (A : Type) :=
  | Val (a : A)
  | Exc (e : exn)
  | Undef.
Arguments Val {A} a.
Arguments Exc {A} e.
Arguments Undef {A}.

(** ** Number arithmetic *)

Module PyNum.

Definition prec : Z := 53.
Definition emax : Z := 1024.

Definition fadd : spec_float -> spec_float -> spec_float := SFadd prec emax.
Definition fdiv : spec_float -> spec_float -> spec_float := SFdiv prec emax.
Definition feqb : spec_float -> spec_float -> bool := SFeqb.

(** [float(z)]: the nearest binary64 value, ties to even; an int beyond
    the float range raises OverflowError. *)
Definition int_to_float (z : Z) : outcome spec_float :=
  match binary_normalize prec emax z 0 false with
  | S754_infinity _ => Exc OverflowError
  | f => Val f
  end.

Definition to_float (a : num) : outcome spec_float :=
  match a with
  | NInt z => int_to_float z
  | NFloat f => Val f
  end.

(** [a + b] *)
Definition add (a b : num) : outcome num :=
  match a, b with
  | NInt x, NInt y => Val (NInt (x + y))
  | _, _ =>
      match to_float a with
      | Val x =>
          match to_float b with
          | Val y => Val (NFloat (fadd x y))
          | Exc e => Exc e
          | Undef => Undef
          end
      | Exc e => Exc e
      | Undef => Undef
      end
  end.

Definition is_zero (f : spec_float) : bool :=
  match f with
  | S754_zero _ => true
  | _ => false
  end.

(** [a / b] on two ints: the correctly rounded quotient. *)
Definition int_truediv (a b : Z) : outcome spec_float :=
  if b =? 0 then Exc ZeroDivisionError
  else if a =? 0 then Val (S754_zero (b <? 0))
  else
    let sgn := xorb (a <? 0) (b <? 0) in
    let '(q, e, l) := SFdiv_core_binary prec emax (Z.abs a) 0 (Z.abs b) 0 in
    match binary_round_aux prec emax sgn q e l with
    | S754_infinity _ => Exc OverflowError
    | f => Val f
    end.

(** [a / b] (true division) *)
Definition truediv (a b : num) : outcome num :=
  match a, b with
  | NInt x, NInt y =>
      match int_truediv x y with
      | Val f => Val (NFloat f)
      | Exc e => Exc e
      | Undef => Undef
      end
  | _, _ =>
      match to_float a with
      | Val x =>
          match to_float b with
          | Val y =>
              if is_zero y then Exc ZeroDivisionError
              else Val (NFloat (fdiv x y))
          | Exc e => Exc e
          | Undef => Undef
          end
      | Exc e => Exc e
      | Undef => Undef
      end
  end.

(** Exact comparison of a float with an int. *)
Definition float_eq_int (f : spec_float) (z : Z) : bool :=
  match f with
  | S754_zero _ => z =? 0
  | S754_finite s m e =>
      let sm := cond_Zopp s (Zpos m) in
      if 0 <=? e then sm * 2 ^ e =? z else sm =? z * 2 ^ (- e)
  | _ => false
  end.

(** [a == b] *)
Definition eqb (a b : num) : bool :=
  match a, b with
  | NInt x, NInt y => x =? y
  | NFloat x, NFloat y => feqb x y
  | NFloat x, NInt y => float_eq_int x y
  | NInt x, NFloat y => float_eq_int y x
  end.

(** Float literals used in examples. *)
Definition of_int (z : Z) : spec_float := binary_normalize prec emax z 0 false.

End PyNum.

(** ** Strings *)

Module PyStr.

(** [str.isspace] on one character.  Characters are code points below
    256; the whitespace ones are TAB..CR, FS..US, SPACE, NEL and NBSP. *)
Definition is_space (c : ascii) : bool :=
  let n := N_of_ascii c in
  ((9 <=? n) && (n <=? 13) || (28 <=? n) && (n <=? 32)
   || (n =? 133) || (n =? 160))%N.

Fixpoint lstrip (s : string) : string :=
  match s with
  | EmptyString => EmptyString
  | String c s' => if is_space c then lstrip s' else s
  end.

Fixpoint rstrip (s : string) : string :=
  match s with
  | EmptyString => EmptyString
  | String c s' =>
      match rstrip s' with
      | EmptyString => if is_space c then EmptyString else String c EmptyString
      | r => String c r
      end
  end.

(** [s.strip()] with no argument. *)
Definition strip (s : string) : string := rstrip (lstrip s).

Fixpoint all_space (s : string) : bool :=
  match s with
  | EmptyString => true
  | String c s' => is_space c && all_space s'
  end.

Definition head_space (s : string) : bool :=
  match s with
  | EmptyString => false
  | String c _ => is_space c
  end.

Fixpoint last_space (s : string) : bool :=
  match s with
  | EmptyString => false
  | String c EmptyString => is_space c
  | String _ s' => last_space s'
  end.

(** [t] is [s] with its leading and trailing whitespace removed: [s] is
    [t] between two runs of whitespace, and [t] neither starts nor ends
    with whitespace. *)
Definition trimmed_of (s t : string) : Prop :=
  (exists pre post : string,
      s = String.append pre (String.append t post)
      /\ all_space pre = true /\ all_space post = true)
  /\ head_space t = false /\ last_space t = false.

End PyStr.

(** ** Computations on the heap *)

Definition M (A : Type) : Type := heap -> outcome A * heap.

Definition ret {A} (a : A) : M A := fun h => (Val a, h).
Definition lift {A} (o : outcome A) : M A := fun h => (o, h).

Definition bind {A B} (m : M A) (k : A -> M B) : M B :=
  fun h =>
    match m h with
    | (Val a, h') => k a h'
    | (Exc e, h') => (Exc e, h')
    | (Undef, h') => (Undef, h')
    end.

Notation "'let*' x ':=' m 'in' k" := (bind m (fun x => k))
  (at level 10, x name, m at level 100, k at level 200).
Notation "m ';;' k" := (bind m (fun _ => k))
  (at level 100, right associativity).

(** A new object at an unused location. *)
Definition alloc (o : obj) : M loc :=
  fun h => let l := fresh (dom h) in (Val l, <[l := o]> h).

(** ** Operators and protocols *)

(** The items a [for] statement visits.  The loops below never write to
    the list they iterate, so the items are read once. *)
Definition iter_items (v : val) : M (list val) :=
  fun h =>
    match v with
    | VNone | VNum _ => (Exc TypeError, h)
    | VStr _ => (Undef, h)
    | VRef l =>
        match h !! l with
        | Some (OList items) => (Val items, h)
        | _ => (Undef, h)
        end
    end.

(** [len(v)] *)
Definition py_len (v : val) : M Z :=
  fun h =>
    match v with
    | VNone | VNum _ => (Exc TypeError, h)
    | VStr _ => (Undef, h)
    | VRef l =>
        match h !! l with
        | Some (OList items) => (Val (Z.of_nat (length items)), h)
        | _ => (Undef, h)
        end
    end.

(** [total + n] where [total] is a number. *)
Definition py_add (total : num) (n : val) : outcome num :=
  match n with
  | VNum b => PyNum.add total b
  | _ => Exc TypeError
  end.

(** [v[key]] for a string key. *)
Definition py_getitem (v : val) (key : string) : M val :=
  fun h =>
    match v with
    | VNone | VNum _ | VStr _ => (Exc TypeError, h)
    | VRef l =>
        match h !! l with
        | Some (ODict fields) =>
            match fields !! key with
            | Some x => (Val x, h)
            | None => (Exc KeyError, h)
            end
        | Some (OList _) => (Exc TypeError, h)
        | None => (Undef, h)
        end
    end.

(** [a == b] *)
Definition py_eq (a b : val) : outcome bool :=
  match a, b with
  | VNone, VNone => Val true
  | VNum x, VNum y => Val (PyNum.eqb x y)
  | VStr s, VStr t => Val (String.eqb s t)
  | VRef l, VRef l' => if decide (l = l') then Val true else Undef
  | _, _ => Val false
  end.

(** [item != None] *)
Definition py_ne_None (item : val) : bool :=
  match item with
  | VNone => false
  | _ => true
  end.

(** [item.strip()] *)
Definition py_strip (item : val) : M val :=
  fun h =>
    match item with
    | VStr s => (Val (VStr (PyStr.strip s)), h)
    | VNone | VNum _ => (Exc AttributeError, h)
    | VRef l =>
        match h !! l with
        | Some _ => (Exc AttributeError, h)
        | None => (Undef, h)
        end
    end.

(** [result.append(x)] *)
Definition list_append (result : loc) (x : val) : M unit :=
  fun h =>
    match h !! result with
    | Some (OList items) => (Val tt, <[result := OList (items ++ [x])]> h)
    | Some (ODict _) => (Exc AttributeError, h)
    | None => (Undef, h)
    end.

(** ** The three functions *)

(** <<
    def calculate_average(numbers):
        total = 0
        for n in numbers:
            total = total + n
        avg = total / len(numbers)
        return avg
    >> *)
Fixpoint sum_loop (total : num) (numbers : list val) : outcome num :=
  match numbers with
  | [] => Val total
  | n :: rest =>
      match py_add total n with
      | Val total' => sum_loop total' rest
      | Exc e => Exc e
      | Undef => Undef
      end
  end.

Definition calculate_average (numbers : val) : M val :=
  let total := NInt 0 in
  let* items := iter_items numbers in
  let* total := lift (sum_loop total items) in
  let* count := py_len numbers in
  let* avg := lift (PyNum.truediv total (NInt count)) in
  ret (VNum avg).

(** <<
    def find_user(users, id):
        for user in users:
            if user['id'] == id:
                return user
        return None
    >> *)
Fixpoint find_loop (users : list val) (id : val) : M val :=
  match users with
  | [] => ret VNone
  | user :: rest =>
      let* uid := py_getitem user "id" in
      let* hit := lift (py_eq uid id) in
      if hit then ret user else find_loop rest id
  end.

Definition find_user (users id : val) : M val :=
  let* items := iter_items users in
  find_loop items id.

(** <<
    def process_data(data):
        result = []
        for item in data:
            if item != None:
                result.append(item.strip())
        return result
    >> *)
Fixpoint clean_loop (result : loc) (data : list val) : M unit :=
  match data with
  | [] => ret tt
  | item :: rest =>
      if py_ne_None item then
        let* s := py_strip item in
        (list_append result s ;; clean_loop result rest)
      else clean_loop result rest
  end.

Definition process_data (data : val) : M val :=
  let* result := alloc (OList []) in
  let* items := iter_items data in
  (clean_loop result items ;;
   ret (VRef result)).

(** ** Reference definitions, following the specification's wording *)

Definition outcome_map {A B} (f : A -> B) (o : outcome A) : outcome B :=
  match o with
  | Val a => Val (f a)
  | Exc e => Exc e
  | Undef => Undef
  end.

Definition outcome_bind {A B} (o : outcome A) (k : A -> outcome B) : outcome B :=
  match o with
  | Val a => k a
  | Exc e => Exc e
  | Undef => Undef
  end.

(** "the sum of the elements of N, accumulated left-to-right in sequence
    order": a left fold of [+] from 0. *)
Definition sum_left (N : list num) : outcome num :=
  fold_left (fun acc n => outcome_bind acc (fun t => PyNum.add t n)) N (Val (NInt 0)).

(** "(sum of the elements of N) / (length of N)" *)
Definition mean_spec (N : list num) : outcome num :=
  outcome_bind (sum_left N)
    (fun s => PyNum.truediv s (NInt (Z.of_nat (length N)))).

(** An input item of [process_data]: absent, or a string. *)
Definition opt_item (o : option string) : val :=
  match o with
  | None => VNone
  | Some s => VStr s
  end.

(** The non-absent items, in their original relative order. *)
Definition present (I : list (option string)) : list string := omap id I.

Definition count_present (I : list (option string)) : nat :=
  length (filter (fun o => is_Some o) I).

(** What one input item contributes to the cleaned sequence. *)
Definition contribution (o : option string) : list string :=
  match o with
  | None => []
  | Some s => [PyStr.strip s]
  end.

(** The cleaned sequence: every item's contribution, in order. *)
Definition cleaned (I : list (option string)) : list string :=
  I ≫= contribution.

(** ** Vocabulary of the statements *)

(** Python's truth value of an object ([bool(v)]). *)
Definition py_truthy (h : heap) (v : val) : bool :=
  match v with
  | VNone => false
  | VNum (NInt z) => negb (z =? 0)
  | VNum (NFloat f) => negb (PyNum.is_zero f)
  | VStr s => negb (String.eqb s "")
  | VRef l =>
      match h !! l with
      | Some (OList items) => negb (bool_decide (items = []))
      | Some (ODict fields) => negb (bool_decide (fields = ∅))
      | None => false
      end
  end.

(** The [id] field of the record [u] refers to, when [u] is a reference
    to a dict that has one. *)
Definition id_of (h : heap) (u : val) : option val :=
  match u with
  | VRef r =>
      match h !! r with
      | Some (ODict fields) => fields !! "id"
      | _ => None
      end
  | _ => None
  end.

(** "record [u] has an [id] field equal to [k]" ([==] answers True), and
    "[u] has an [id] field, not equal to [k]" ([==] answers False). *)
Definition id_equal (h : heap) (k u : val) : Prop :=
  exists v, id_of h u = Some v /\ py_eq v k = Val true.

Definition id_differs (h : heap) (k u : val) : Prop :=
  exists v, id_of h u = Some v /\ py_eq v k = Val false.

(** [u] has an [id] field that [==] compares with [k], either way. *)
Definition id_comparable (h : heap) (k u : val) : Prop :=
  id_equal h k u \/ id_differs h k u.

(** A reference to a dict without the key [id]. *)
Definition lacks_id (h : heap) (u : val) : Prop :=
  exists r fields, u = VRef r /\ h !! r = Some (ODict fields)
                   /\ fields !! "id" = None.

(** An identifier of a scalar type: None, a number or a string. *)
Definition scalar (k : val) : Prop :=
  match k with
  | VRef _ => False
  | _ => True
  end.

(** What a caller observes of a call that returns a list: its items, or
    the exception. *)
Definition returned_list (res : outcome val * heap) : outcome (list val) :=
  match res with
  | (Val (VRef r), h') =>
      match h' !! r with
      | Some (OList items) => Val items
      | _ => Undef
      end
  | (Val _, _) => Undef
  | (Exc e, _) => Exc e
  | (Undef, _) => Undef
  end.

(** ** Sample heaps *)

Module Sample.

Definition ints (zs : list Z) : list val := (fun z => VNum (NInt z)) <$> zs.

(** [numbers = [2, 4, 6]] *)
Definition h_numbers : heap := {[ 1%positive := OList (ints [2; 4; 6]) ]}.

(** [numbers = []] *)
Definition h_empty : heap := {[ 1%positive := OList [] ]}.

(** [numbers = [10 ** 400]] *)
Definition h_huge : heap := {[ 1%positive := OList (ints [10 ^ 400]) ]}.

(** [data = [" a ", None, "b", "  "]] *)
Definition raw : list (option string) := [Some " a "; None; Some "b"; Some "  "].
Definition h_data : heap := {[ 1%positive := OList (opt_item <$> raw) ]}.

Definition int (z : Z) : val := VNum (NInt z).

(** [users = [{id: 1, name: "a"}, {id: 2, name: "b"}]] *)
Definition h_users : heap :=
  {[ 1%positive := ODict {[ "id"%string := int 1; "name"%string := VStr "a" ]};
     2%positive := ODict {[ "id"%string := int 2; "name"%string := VStr "b" ]};
     3%positive := OList [VRef 1%positive; VRef 2%positive] ]}.

(** Two distinct records with the same contents, the one at location 2
    listed first. *)
Definition h_twins : heap :=
  {[ 1%positive := ODict {[ "id"%string := int 7; "name"%string := VStr "x" ]};
     2%positive := ODict {[ "id"%string := int 7; "name"%string := VStr "x" ]};
     3%positive := OList [VRef 2%positive; VRef 1%positive] ]}.

(** Records 1 and 2 have an id, record 4 has none; list 3 meets the
    record without id (and a None) after record 2, list 5 before it. *)
Definition h_ragged : heap :=
  {[ 1%positive := ODict {[ "id"%string := int 1 ]};
     2%positive := ODict {[ "id"%string := int 2 ]};
     4%positive := ODict {[ "name"%string := VStr "z" ]};
     3%positive := OList [VRef 1%positive; VRef 2%positive; VRef 4%positive; VNone];
     5%positive := OList [VRef 1%positive; VRef 4%positive; VRef 2%positive] ]}.

(** [data = ["a", None, "", "b"]] *)
Definition h_falsy : heap :=
  {[ 1%positive := OList [VStr "a"; VNone; VStr ""; VStr "b"] ]}.

End Sample.

(** ** Further vocabulary *)

(** A value on which the subscript [u['id']] raises TypeError: None, a
    number, a string, or a list. *)
Definition not_subscriptable (h : heap) (u : val) : Prop :=
  match u with
  | VRef r => exists items, h !! r = Some (OList items)
  | _ => True
  end.

(** A present item without a [strip] method: a number, or a list or dict. *)
Definition no_strip (h : heap) (v : val) : Prop :=
  match v with
  | VNum _ => True
  | VRef r => is_Some (h !! r)
  | _ => False
  end.

(** A string that neither starts nor ends with whitespace. *)
Definition is_trimmed (s : string) : Prop :=
  PyStr.head_space s = false /\ PyStr.last_space s = false.

Definition floats (fs : list spec_float) : list val :=
  (fun f => VNum (NFloat f)) <$> fs.

Module Sample2.

Definition one : spec_float := PyNum.of_int 1.

(** [numbers = [1, None, 2]] *)
Definition h_mixed : heap :=
  {[ 1%positive := OList [Sample.int 1; VNone; Sample.int 2] ]}.

(** [[1, 2, 3]] at 1 and [[3, 1, 2]] at 2 *)
Definition h_perm : heap :=
  {[ 1%positive := OList (VNum <$> (NInt <$> [1; 2; 3]));
     2%positive := OList (VNum <$> (NInt <$> [3; 1; 2])) ]}.

(** [numbers = [1.0, nan, 1.0]] *)
Definition h_nan : heap :=
  {[ 1%positive := OList (floats [one; S754_nan; one]) ]}.

(** [users = [{id: 1}, None, {id: 2}]] *)
Definition h_holed : heap :=
  {[ 1%positive := ODict {[ "id"%string := Sample.int 1 ]};
     2%positive := ODict {[ "id"%string := Sample.int 2 ]};
     3%positive := OList [VRef 1%positive; VNone; VRef 2%positive] ]}.

(** Two lists of records, and their concatenation at 5. *)
Definition h_parts : heap :=
  {[ 1%positive := ODict {[ "id"%string := Sample.int 1 ]};
     2%positive := ODict {[ "id"%string := Sample.int 2 ]};
     3%positive := OList [VRef 1%positive];
     4%positive := OList [VRef 2%positive];
     5%positive := OList ([VRef 1%positive] ++ [VRef 2%positive]) ]}.

(** [data = ["a ", 0]] *)
Definition h_zero : heap :=
  {[ 1%positive := OList ((opt_item <$> [Some "a "%string]) ++ [Sample.int 0]) ]}.

(** [[" a", None]] at 1, [["b "]] at 2 and their concatenation at 3 *)
Definition part1 : list (option string) := [Some " a"%string; None].
Definition part2 : list (option string) := [Some "b "%string].
Definition h_cat : heap :=
  {[ 1%positive := OList (opt_item <$> part1);
     2%positive := OList (opt_item <$> part2);
     3%positive := OList (opt_item <$> (part1 ++ part2)) ]}.

(** [data = ["a", "b c"]], already clean *)
Definition h_tidy : heap :=
  {[ 1%positive := OList (VStr <$> ["a"; "b c"]%string) ]}.

(** [data = ["a", " \t", None]] *)
Definition h_blank : heap :=
  {[ 1%positive :=
       OList (opt_item <$> ([Some "a"%string]
                            ++ Some (String " " (String "009" EmptyString))
                            :: [None])) ]}.

End Sample2.

(** * Properties *)

(** ** Number arithmetic: which outcomes occur *)

Section FloatFacts.

Import PyNum.

Lemma digits2_pos_lower (m : positive) : 2 ^ (Zpos (digits2_pos m) - 1) <= Zpos m.
Proof.
  induction m as [m IH|m IH|]; simpl digits2_pos; [| |done].
  - rewrite Pos2Z.inj_succ. replace (Z.succ (Zpos (digits2_pos m)) - 1)
      with (Z.succ (Zpos (digits2_pos m) - 1)) by lia.
    rewrite Z.pow_succ_r by lia. lia.
  - rewrite Pos2Z.inj_succ. replace (Z.succ (Zpos (digits2_pos m)) - 1)
      with (Z.succ (Zpos (digits2_pos m) - 1)) by lia.
    rewrite Z.pow_succ_r by lia. lia.
Qed.

Lemma shr_1_lower (k : Z) (mrs : shr_record) :
  0 <= k -> 2 ^ (k + 1) <= shr_m mrs -> 2 ^ k <= shr_m (shr_1 mrs).
Proof.
  intros Hk. destruct mrs as [m r s]. simpl.
  rewrite Z.pow_add_r, Z.pow_1_r by lia.
  pose proof (Z.pow_pos_nonneg 2 k) as Hpos.
  destruct m as [|[p|p|]|[p|p|]]; simpl; lia.
Qed.

Lemma iter_shr_1_lower (n : positive) : forall (k : Z) (mrs : shr_record),
  0 <= k -> 2 ^ (k + Zpos n) <= shr_m mrs -> 2 ^ k <= shr_m (SpecFloat.iter_pos shr_1 n mrs).
Proof.
  induction n as [n IH|n IH|]; intros k mrs Hk Hm; simpl.
  - apply IH; [done|]. apply IH; [lia|]. apply shr_1_lower; [lia|].
    replace (k + Zpos n + Zpos n + 1) with (k + Zpos n~1) by lia. done.
  - apply IH; [done|]. apply IH; [lia|].
    replace (k + Zpos n + Zpos n) with (k + Zpos n~0) by lia. done.
  - by apply shr_1_lower.
Qed.

Lemma shr_record_of_loc_m (m : Z) (l : location) : shr_m (shr_record_of_loc m l) = m.
Proof. by destruct l as [|[]]. Qed.

Lemma shr_fexp_lower (m : positive) (e : Z) (l : location) :
  emin prec emax <= e ->
  1 <= shr_m (shr_fexp prec emax (Zpos m) e l).1
  /\ emin prec emax <= (shr_fexp prec emax (Zpos m) e l).2.
Proof.
  intros He. unfold shr_fexp, shr. simpl Zdigits2.
  pose proof (digits2_pos_lower m) as Hd.
  set (d := Zpos (digits2_pos m)) in *.
  assert (Hn : fexp prec emax (d + e) - e <= d - 1).
  { unfold fexp, emin, prec, emax in *. lia. }
  destruct (fexp prec emax (d + e) - e) as [|n|n] eqn:En; simpl;
    rewrite ?shr_record_of_loc_m; try lia.
  split; [|lia].
  change 1 with (2 ^ 0). apply iter_shr_1_lower; [done|].
  rewrite shr_record_of_loc_m. etrans; [|exact Hd].
  apply Z.pow_le_mono_r; lia.
Qed.

Lemma binary_round_aux_positive (sx : bool) (m : positive) (e : Z) (l : location) :
  emin prec emax <= e ->
  (exists m' e', binary_round_aux prec emax sx (Zpos m) e l = S754_finite sx m' e')
  \/ binary_round_aux prec emax sx (Zpos m) e l = S754_infinity sx.
Proof.
  intros He. unfold binary_round_aux.
  destruct (shr_fexp_lower m e l He) as [H1 He1].
  destruct (shr_fexp prec emax (Zpos m) e l) as [mrs1 e1]. simpl in H1, He1.
  assert (Hr : 1 <= round_nearest_even (shr_m mrs1) (loc_of_shr_record mrs1)).
  { unfold round_nearest_even. repeat case_match; lia. }
  destruct (round_nearest_even _ _) as [|m2|m2]; try lia.
  destruct (shr_fexp_lower m2 e1 loc_Exact He1) as [H2 _].
  destruct (shr_fexp prec emax (Zpos m2) e1 loc_Exact) as [mrs2 e2]. simpl in H2.
  destruct (shr_m mrs2) as [|m3|m3]; try lia.
  destruct (e2 <=? emax - prec); eauto.
Qed.

Lemma int_to_float_positive (p : positive) :
  (exists m e, int_to_float (Zpos p) = Val (S754_finite false m e))
  \/ int_to_float (Zpos p) = Exc OverflowError.
Proof.
  unfold int_to_float, binary_normalize, binary_round.
  destruct (shl_align p 0 _) as [mz ez] eqn:Hal.
  assert (Hez : emin prec emax <= ez).
  { revert Hal. unfold shl_align, fexp, emin, prec, emax.
    repeat case_match; intros; simplify_eq; lia. }
  destruct (binary_round_aux_positive false mz ez loc_Exact Hez)
    as [(m' & e' & ->)| ->]; eauto.
Qed.

Lemma to_float_outcome (a : num) :
  (exists f, to_float a = Val f) \/ to_float a = Exc OverflowError.
Proof.
  destruct a as [z|f]; simpl; [|eauto].
  unfold int_to_float. destruct (binary_normalize prec emax z 0 false); eauto.
Qed.

(** [+] on two numbers returns a number or raises OverflowError. *)
Lemma add_outcome (a b : num) :
  (exists c, add a b = Val c) \/ add a b = Exc OverflowError.
Proof.
  unfold add.
  destruct (to_float_outcome a) as [[x Hx]|Hx], (to_float_outcome b) as [[y Hy]|Hy];
    destruct a, b; rewrite ?Hx, ?Hy; eauto.
Qed.

(** [/] by a positive int returns a float or raises OverflowError. *)
Lemma truediv_outcome (s : num) (n : positive) :
  (exists f, truediv s (NInt (Zpos n)) = Val (NFloat f))
  \/ truediv s (NInt (Zpos n)) = Exc OverflowError.
Proof.
  destruct s as [z|x]; simpl.
  - unfold int_truediv. simpl (Zpos n =? 0).
    destruct (z =? 0); cbn iota; [eauto|].
    destruct (SFdiv_core_binary _ _ _ _ _ _) as [[q e] l].
    destruct (binary_round_aux _ _ _ _ _ _); eauto.
  - destruct (int_to_float_positive n) as [(m & e & ->)| ->]; simpl; eauto.
Qed.

End FloatFacts.

(** ** calculate_average *)

Section Average.

Implicit Types (N : list num) (h : heap) (l : loc).

Lemma fold_add_stuck {A} (f : A -> num -> outcome A) (N : list num) (o : outcome A) :
  (forall a, o <> Val a) ->
  fold_left (fun acc n => outcome_bind acc (fun t => f t n)) N o = o.
Proof.
  intros Ho. induction N as [|n N IH]; simpl; [done|].
  destruct o as [a| |]; simpl; [by destruct (Ho a)|exact IH..].
Qed.

Lemma sum_loop_fold N (t : num) :
  sum_loop t (VNum <$> N)
  = fold_left (fun acc n => outcome_bind acc (fun t => PyNum.add t n)) N (Val t).
Proof.
  revert t. induction N as [|n N IH]; intros t; simpl; [done|].
  destruct (PyNum.add t n) as [t'| |] eqn:E; simpl.
  - apply IH.
  - symmetry. by apply fold_add_stuck.
  - symmetry. by apply fold_add_stuck.
Qed.

Lemma calculate_average_list h l (items : list val) :
  h !! l = Some (OList items) ->
  calculate_average (VRef l) h
  = (outcome_map VNum
       (outcome_bind (sum_loop (NInt 0) items)
          (fun s => PyNum.truediv s (NInt (Z.of_nat (length items))))), h).
Proof.
  intros Hl. unfold calculate_average, bind, iter_items, py_len, lift, ret.
  rewrite Hl. destruct (sum_loop (NInt 0) items) as [s| |]; simpl; try done.
  rewrite Hl. by destruct (PyNum.truediv s _).
Qed.

(** On ints the running total is the exact integer sum. *)
Lemma sum_loop_ints (zs : list Z) (z : Z) :
  sum_loop (NInt z) ((fun x => VNum (NInt x)) <$> zs)
  = Val (NInt (fold_left Z.add zs z)).
Proof.
  revert z. induction zs as [|x zs IH]; intros z; simpl; [done|]. apply IH.
Qed.

(** On floats no step raises: the running total is the left fold of the
    binary64 addition. *)
Lemma sum_loop_floats (fs : list spec_float) (f : spec_float) :
  sum_loop (NFloat f) ((fun x => VNum (NFloat x)) <$> fs)
  = Val (NFloat (fold_left PyNum.fadd fs f)).
Proof.
  revert f. induction fs as [|x fs IH]; intros f; simpl; [done|]. apply IH.
Qed.

(** The running total of a list of numbers is a number, unless a
    conversion overflowed. *)
Lemma sum_left_outcome N :
  (exists s, sum_left N = Val s) \/ sum_left N = Exc OverflowError.
Proof.
  unfold sum_left. rewrite <- sum_loop_fold. generalize (NInt 0).
  induction N as [|n N IH]; intros t; simpl; [eauto|].
  destruct (add_outcome t n) as [[t' ->]| ->]; [apply IH|eauto].
Qed.

End Average.

(** C1 (as stated fails). [calculate_average] does not return on every
    non-empty sequence of numbers: on [[10 ** 400]] the total is the int
    [10 ** 400] and the true division by 1 raises OverflowError. *)
Lemma calculate_average_huge_int :
  calculate_average (VRef 1%positive) Sample.h_huge
  = (Exc OverflowError, Sample.h_huge)
  /\ ~ (exists v : val,
          (calculate_average (VRef 1%positive) Sample.h_huge).1 = Val v).
Proof.
  assert (H : calculate_average (VRef 1%positive) Sample.h_huge
              = (Exc OverflowError, Sample.h_huge)) by (vm_compute; reflexivity).
  split; [exact H|]. rewrite H. by intros [v ?].
Qed.

(** C1 (amended). For a non-empty sequence of numbers N held by the list
    object at [l], [calculate_average] leaves the heap as it is and has
    the outcome of (sum of N) / (length of N), the sum being the
    left-to-right fold of Python's [+] from 0 and [/] Python's true
    division: it returns that float, or raises OverflowError where the
    expression does (an int beyond the float range).  On ints the sum is
    the exact integer sum and the quotient is rounded once; on floats the
    sum is the left fold of the binary64 addition, without compensation. *)
Theorem calculate_average_mean (h : heap) (l : loc) (N : list num) :
  N <> [] ->
  h !! l = Some (OList (VNum <$> N)) ->
  calculate_average (VRef l) h = (outcome_map VNum (mean_spec N), h)
  /\ ((exists f : spec_float, mean_spec N = Val (NFloat f))
      \/ mean_spec N = Exc OverflowError)
  /\ (forall zs : list Z, N = NInt <$> zs ->
        mean_spec N
        = outcome_map NFloat
            (PyNum.int_truediv (fold_left Z.add zs 0) (Z.of_nat (length zs))))
  /\ (forall fs : list spec_float, N = NFloat <$> fs ->
        mean_spec N
        = PyNum.truediv (NFloat (fold_left PyNum.fadd fs (S754_zero false)))
            (NInt (Z.of_nat (length fs)))).
Proof.
  intros Hne Hl. split; [|split; [|split]].
  - rewrite (calculate_average_list _ _ _ Hl). unfold mean_spec, sum_left.
    by rewrite sum_loop_fold, length_fmap.
  - unfold mean_spec.
    destruct (sum_left_outcome N) as [[s ->]| ->]; simpl; [|by right].
    destruct N as [|n N]; [done|]. simpl length. rewrite Nat2Z.inj_succ.
    destruct (Z.succ (Z.of_nat (length N))) as [|p|p] eqn:Hp; try lia.
    apply truediv_outcome.
  - intros zs ->. unfold mean_spec, sum_left.
    rewrite <- sum_loop_fold, <- list_fmap_compose, length_fmap.
    change (VNum ∘ NInt) with (fun x => VNum (NInt x)).
    rewrite sum_loop_ints. simpl.
    by destruct (PyNum.int_truediv _ _).
  - intros fs ->. unfold mean_spec, sum_left.
    rewrite <- sum_loop_fold, <- list_fmap_compose, length_fmap.
    change (VNum ∘ NFloat) with (fun x => VNum (NFloat x)).
    destruct fs as [|f fs]; [done|].
    cbn [fmap list_fmap sum_loop py_add].
    change (PyNum.add (NInt 0) (NFloat f))
      with (Val (NFloat (PyNum.fadd (S754_zero false) f))).
    cbn iota. change (list_fmap _ _ ?g fs) with (g <$> fs).
    by rewrite sum_loop_floats.
Qed.

Lemma calculate_average_mean_witness :
  calculate_average (VRef 1%positive) Sample.h_numbers
  = (Val (VNum (NFloat (PyNum.of_int 4))), Sample.h_numbers).
Proof.
  destruct (calculate_average_mean Sample.h_numbers 1%positive
              [NInt 2; NInt 4; NInt 6]) as [H _].
  - discriminate.
  - reflexivity.
  - exact H.
Defined.

(** C4. On the empty list the division by the zero count raises
    ZeroDivisionError; nothing catches it, so it is the outcome of the
    call. *)
Theorem calculate_average_empty (h : heap) (l : loc) :
  h !! l = Some (OList []) ->
  calculate_average (VRef l) h = (Exc ZeroDivisionError, h).
Proof.
  intros Hl. by rewrite (calculate_average_list _ _ _ Hl).
Qed.

Lemma calculate_average_empty_witness :
  calculate_average (VRef 1%positive) Sample.h_empty
  = (Exc ZeroDivisionError, Sample.h_empty).
Proof.
  apply (calculate_average_empty Sample.h_empty 1%positive). reflexivity.
Defined.

(** ** str.strip *)

Section Strip.

Import PyStr.

Local Notation "s +++ t" := (String.append s t) (at level 60, right associativity).

Lemma lstrip_split (s : string) :
  exists pre, s = pre +++ lstrip s /\ all_space pre = true.
Proof.
  induction s as [|c s [pre [Hs Hpre]]]; simpl.
  - by exists EmptyString.
  - destruct (is_space c) eqn:Hc.
    + exists (String c pre). split.
      * change (String c s = String c (pre +++ lstrip s)). by f_equal.
      * simpl. by rewrite Hc, Hpre.
    + by exists EmptyString.
Qed.

Lemma lstrip_head (s : string) : head_space (lstrip s) = false.
Proof.
  induction s as [|c s IH]; simpl; [done|].
  destruct (is_space c) eqn:Hc; [done|]. simpl. exact Hc.
Qed.

Lemma rstrip_split (s : string) :
  exists post, s = rstrip s +++ post /\ all_space post = true.
Proof.
  induction s as [|c s [post [Hs Hpost]]]; simpl.
  - by exists EmptyString.
  - destruct (rstrip s) as [|c' r] eqn:Hr.
    + change (s = post) in Hs. rewrite <- Hs in Hpost.
      destruct (is_space c) eqn:Hc.
      * exists (String c s). simpl. by rewrite Hc, Hpost.
      * by exists s.
    + exists post. split; [|done].
      change (String c s = String c (String c' r +++ post)). by f_equal.
Qed.

Lemma rstrip_last (s : string) : last_space (rstrip s) = false.
Proof.
  induction s as [|c s IH]; simpl; [done|].
  destruct (rstrip s) as [|c' r] eqn:Hr.
  - destruct (is_space c) eqn:Hc; simpl; [done|exact Hc].
  - exact IH.
Qed.

Lemma rstrip_head (s : string) :
  head_space s = false -> head_space (rstrip s) = false.
Proof.
  destruct s as [|c s]; simpl; [done|]. intros Hc.
  destruct (rstrip s); [by rewrite Hc|done].
Qed.

Lemma lstrip_id (t : string) : head_space t = false -> lstrip t = t.
Proof. destruct t as [|c t]; simpl; [done|]. by intros ->. Qed.

Lemma rstrip_id (t : string) : last_space t = false -> rstrip t = t.
Proof.
  induction t as [|c t IH]; [done|].
  destruct t as [|c' t'].
  - simpl. by intros ->.
  - intros Hl. change (last_space (String c' t') = false) in Hl.
    specialize (IH Hl). simpl in *. by rewrite IH.
Qed.

(** [strip] removes exactly the leading and trailing whitespace. *)
Lemma strip_trimmed (s : string) : trimmed_of s (strip s).
Proof.
  unfold trimmed_of, strip. split; [|split].
  - destruct (lstrip_split s) as [pre [Hs Hpre]].
    destruct (rstrip_split (lstrip s)) as [post [Ht Hpost]].
    exists pre, post. split; [|done]. by rewrite <- Ht.
  - apply rstrip_head, lstrip_head.
  - apply rstrip_last.
Qed.

(** A trimmed string is left as it is. *)
Lemma strip_fixed (t : string) :
  head_space t = false -> last_space t = false -> strip t = t.
Proof. intros Hh Hl. unfold strip. by rewrite (lstrip_id _ Hh), (rstrip_id _ Hl). Qed.

Lemma strip_strip (s : string) : strip (strip s) = strip s.
Proof.
  destruct (strip_trimmed s) as (_ & Hh & Hl). by apply strip_fixed.
Qed.

Lemma lstrip_spaces (w x : string) :
  all_space w = true -> lstrip (w +++ x) = lstrip x.
Proof.
  induction w as [|c w IH]; simpl; [done|].
  intros [Hc Hw]%andb_true_iff. rewrite Hc. by apply IH.
Qed.

Lemma rstrip_all_space (w : string) : all_space w = true -> rstrip w = EmptyString.
Proof.
  induction w as [|c w IH]; simpl; [done|].
  intros [Hc Hw]%andb_true_iff. by rewrite (IH Hw), Hc.
Qed.

Lemma lstrip_all_space (w : string) : all_space w = true -> lstrip w = EmptyString.
Proof.
  induction w as [|c w IH]; simpl; [done|].
  intros [Hc Hw]%andb_true_iff. rewrite Hc. by apply IH.
Qed.

Lemma rstrip_spaces (t w : string) :
  all_space w = true -> rstrip (t +++ w) = rstrip t.
Proof.
  intros Hw. induction t as [|c t IH].
  - by apply rstrip_all_space.
  - change (rstrip (String c t +++ w))
      with (match rstrip (t +++ w) with
            | EmptyString => if is_space c then EmptyString else String c EmptyString
            | r => String c r
            end).
    by rewrite IH.
Qed.

(** [trimmed_of] determines the trimmed string: it is [strip s]. *)
Lemma trimmed_of_strip (s t : string) : trimmed_of s t -> t = strip s.
Proof.
  intros ((pre & post & -> & Hpre & Hpost) & Hh & Hl). unfold strip.
  rewrite (lstrip_spaces _ _ Hpre).
  destruct t as [|c t].
  - change (EmptyString +++ post) with post.
    by rewrite (lstrip_all_space _ Hpost).
  - simpl in Hh. change (lstrip (String c t +++ post))
      with (if is_space c then lstrip (t +++ post) else String c (t +++ post)).
    rewrite Hh. change (String c (t +++ post)) with (String c t +++ post).
    by rewrite (rstrip_spaces _ _ Hpost), (rstrip_id _ Hl).
Qed.

End Strip.

(** ** process_data *)

Section Clean.

Implicit Types (I : list (option string)) (h : heap) (l r : loc).

Lemma cleaned_present I : cleaned I = PyStr.strip <$> present I.
Proof.
  unfold cleaned, present. induction I as [|[s|] I IH]; csimpl; [done| |done].
  f_equal. exact IH.
Qed.

Lemma cleaned_app I J : cleaned (I ++ J) = cleaned I ++ cleaned J.
Proof. unfold cleaned. apply bind_app. Qed.

Lemma length_present I : length (present I) = count_present I.
Proof.
  unfold present, count_present. induction I as [|[s|] I IH]; [done| |].
  - rewrite filter_cons_True by eauto. csimpl. by rewrite IH.
  - rewrite filter_cons_False; [exact IH|]. by intros [? ?].
Qed.

Lemma present_trimmed I : Forall2 PyStr.trimmed_of (present I) (cleaned I).
Proof.
  rewrite cleaned_present. apply Forall2_fmap_r, Forall_Forall2_diag.
  apply Forall_forall. intros s _. apply strip_trimmed.
Qed.

(** The loop appends the contributions to the list at [r]; no other
    location is written. *)
Lemma clean_loop_items I : forall h r acc,
  h !! r = Some (OList acc) ->
  clean_loop r (opt_item <$> I) h
  = (Val tt, <[r := OList (acc ++ (VStr <$> cleaned I))]> h).
Proof.
  induction I as [|[s|] I IH]; intros h r acc Hr.
  - simpl. unfold ret, cleaned. simpl. rewrite app_nil_r.
    by rewrite insert_id.
  - change (clean_loop r (opt_item <$> Some s :: I) h)
      with (bind (py_strip (VStr s))
              (fun x => bind (list_append r x)
                          (fun _ => clean_loop r (opt_item <$> I))) h).
    unfold bind at 1. simpl. unfold bind, list_append. rewrite Hr.
    rewrite (IH _ r (acc ++ [VStr (PyStr.strip s)])) by apply lookup_insert_eq.
    rewrite insert_insert_eq. by rewrite <- app_assoc.
  - change (clean_loop r (opt_item <$> None :: I) h)
      with (clean_loop r (opt_item <$> I) h).
    by apply IH.
Qed.

Lemma process_data_run I h l :
  h !! l = Some (OList (opt_item <$> I)) ->
  process_data (VRef l) h
  = (Val (VRef (fresh (dom h))),
     <[fresh (dom h) := OList (VStr <$> cleaned I)]> h).
Proof.
  intros Hl. set (r := fresh (dom h)).
  assert (Hr : h !! r = None) by apply not_elem_of_dom, is_fresh.
  assert (Hne : r <> l) by (intros ->; congruence).
  unfold process_data, bind, alloc, iter_items. fold r.
  rewrite lookup_insert_ne, Hl by done.
  rewrite (clean_loop_items I _ r []) by apply lookup_insert_eq.
  by rewrite insert_insert_eq.
Qed.

End Clean.

(** C3. For a sequence I of items each absent or a string, held by the
    list object at [l], [process_data] returns a new list object whose
    items are the non-absent items of I, each with its leading and
    trailing whitespace removed, in their original relative order; its
    length is the number of non-absent items, and it is empty when I is. *)
Theorem process_data_clean (h : heap) (l : loc) (I : list (option string)) :
  h !! l = Some (OList (opt_item <$> I)) ->
  exists (r : loc) (out : list string),
    process_data (VRef l) h = (Val (VRef r), <[r := OList (VStr <$> out)]> h)
    /\ h !! r = None
    /\ length out = count_present I
    /\ Forall2 PyStr.trimmed_of (present I) out
    /\ out = PyStr.strip <$> present I
    /\ (I = [] -> out = []).
Proof.
  intros Hl. exists (fresh (dom h)), (cleaned I). split; [|split; [|split; [|split; [|split]]]].
  - by apply process_data_run.
  - apply not_elem_of_dom, is_fresh.
  - by rewrite cleaned_present, length_fmap, length_present.
  - apply present_trimmed.
  - apply cleaned_present.
  - by intros ->.
Qed.

Lemma process_data_clean_witness :
  exists (r : loc) (out : list string),
    process_data (VRef 1%positive) Sample.h_data
    = (Val (VRef r), <[r := OList (VStr <$> out)]> Sample.h_data)
    /\ Sample.h_data !! r = None
    /\ length out = count_present Sample.raw
    /\ Forall2 PyStr.trimmed_of (present Sample.raw) out
    /\ out = PyStr.strip <$> present Sample.raw
    /\ (Sample.raw = [] -> out = []).
Proof.
  apply (process_data_clean Sample.h_data 1%positive Sample.raw). reflexivity.
Defined.

(** C5. The test that decides whether an item is skipped answers False
    for None and for nothing else, whatever the item's truth value.  So in
    a sequence of absent-or-string items an absent item contributes
    nothing, and a string contributes its trimmed form even when it is
    falsy: the empty string stays, as an empty string. *)
Theorem process_data_skips_only_None
    (h : heap) (l : loc) (I J : list (option string)) (o : option string) :
  h !! l = Some (OList (opt_item <$> (I ++ o :: J))) ->
  (forall v : val, py_ne_None v = false <-> v = VNone)
  /\ (forall s : string, py_truthy h (VStr s) = false ->
        py_ne_None (VStr s) = true /\ contribution (Some s) = [""%string])
  /\ exists (r : loc) (out : list string),
       process_data (VRef l) h = (Val (VRef r), <[r := OList (VStr <$> out)]> h)
       /\ match o with
          | None => out = cleaned I ++ cleaned J
          | Some s => out = cleaned I ++ PyStr.strip s :: cleaned J
          end.
Proof.
  intros Hl. split; [|split].
  - intros v. by destruct v.
  - intros s Hs. split; [done|]. simpl in Hs.
    apply negb_false_iff, String.eqb_eq in Hs. by subst s.
  - exists (fresh (dom h)), (cleaned (I ++ o :: J)). split.
    + by apply process_data_run.
    + rewrite cleaned_app. by destruct o.
Qed.

Lemma process_data_skips_only_None_witness :
  exists (r : loc) (out : list string),
    process_data (VRef 1%positive) Sample.h_falsy
    = (Val (VRef r), <[r := OList (VStr <$> out)]> Sample.h_falsy)
    /\ out = ["a"; ""; "b"]%string.
Proof.
  destruct (process_data_skips_only_None Sample.h_falsy 1%positive
              [Some "a"%string; None] [Some "b"%string] (Some ""%string))
    as (_ & _ & r & out & Hrun & Hout).
  - reflexivity.
  - exists r, out. split; [exact Hrun|exact Hout].
Defined.

(** C10. Cleaning the list that [process_data] returned gives a list with
    the same items: the output holds no absent item and every string in
    it is already trimmed. *)
Theorem process_data_idempotent (h : heap) (l : loc) (I : list (option string)) :
  h !! l = Some (OList (opt_item <$> I)) ->
  exists (r1 : loc) (h1 : heap) (out : list val),
    process_data (VRef l) h = (Val (VRef r1), h1)
    /\ returned_list (process_data (VRef l) h) = Val out
    /\ returned_list (process_data (VRef r1) h1) = Val out.
Proof.
  intros Hl. set (r1 := fresh (dom h)).
  set (h1 := <[r1 := OList (VStr <$> cleaned I)]> h).
  exists r1, h1, (VStr <$> cleaned I).
  assert (H1 : h1 !! r1 = Some (OList (opt_item <$> (Some <$> cleaned I)))).
  { unfold h1. rewrite lookup_insert_eq, <- list_fmap_compose. done. }
  assert (Hfix : cleaned (Some <$> cleaned I) = cleaned I).
  { rewrite (cleaned_present I). generalize (present I). intros ss.
    unfold cleaned. induction ss as [|s ss IH]; csimpl; [done|].
    rewrite strip_strip. f_equal. exact IH. }
  split; [|split].
  - by apply process_data_run.
  - rewrite (process_data_run _ _ _ Hl). unfold returned_list.
    by rewrite lookup_insert_eq.
  - rewrite (process_data_run _ _ _ H1). unfold returned_list.
    by rewrite lookup_insert_eq, Hfix.
Qed.

Lemma process_data_idempotent_witness :
  exists (r1 : loc) (h1 : heap) (out : list val),
    process_data (VRef 1%positive) Sample.h_data = (Val (VRef r1), h1)
    /\ returned_list (process_data (VRef 1%positive) Sample.h_data) = Val out
    /\ returned_list (process_data (VRef r1) h1) = Val out.
Proof.
  apply (process_data_idempotent Sample.h_data 1%positive Sample.raw).
  reflexivity.
Defined.

(** ** find_user *)

Section Find.

Implicit Types (h : heap) (l r : loc) (k u v : val) (us : list val).

Lemma py_getitem_id h u v :
  id_of h u = Some v -> py_getitem u "id" h = (Val v, h).
Proof.
  unfold id_of, py_getitem. destruct u as [| | |r]; try done.
  destruct (h !! r) as [[items|fields]|]; try done. by intros ->.
Qed.

Lemma find_loop_hit h k u us :
  id_equal h k u -> find_loop (u :: us) k h = (Val u, h).
Proof.
  intros (v & Hv & Heq). simpl. unfold bind at 1.
  rewrite (py_getitem_id _ _ _ Hv). unfold bind, lift. by rewrite Heq.
Qed.

Lemma find_loop_miss h k u us :
  id_differs h k u -> find_loop (u :: us) k h = find_loop us k h.
Proof.
  intros (v & Hv & Heq). simpl. unfold bind at 1.
  rewrite (py_getitem_id _ _ _ Hv). unfold bind, lift. by rewrite Heq.
Qed.

Lemma find_loop_skip h k (pre rest : list val) :
  Forall (id_differs h k) pre ->
  find_loop (pre ++ rest) k h = find_loop rest k h.
Proof.
  induction 1 as [|u pre Hu _ IH]; [done|].
  rewrite <- app_comm_cons, find_loop_miss by done. exact IH.
Qed.

Lemma find_loop_lacks h k u us :
  lacks_id h u -> find_loop (u :: us) k h = (Exc KeyError, h).
Proof.
  intros (r & fields & -> & Hr & Hid). simpl. unfold bind at 1, py_getitem.
  by rewrite Hr, Hid.
Qed.

(** Against a scalar identifier [==] always answers. *)
Lemma py_eq_scalar v k : scalar k -> exists b : bool, py_eq v k = Val b.
Proof. destruct v, k; simpl; intros Hk; try done; eauto. Qed.

(** Every record with an [id] field is comparable with a scalar
    identifier. *)
Lemma id_comparable_scalar h k u :
  scalar k -> is_Some (id_of h u) -> id_comparable h k u.
Proof.
  intros Hk [v Hv]. destruct (py_eq_scalar v k Hk) as [[|] Hb].
  - left. by exists v.
  - right. by exists v.
Qed.

Lemma id_differs_of_not_equal h k u :
  id_comparable h k u -> ~ id_equal h k u -> id_differs h k u.
Proof. by intros [?|?] ?. Qed.

(** The search reads the heap and leaves it as it is. *)
Lemma find_loop_heap us k h : (find_loop us k h).2 = h.
Proof.
  induction us as [|u us IH]; [done|]. simpl. unfold bind at 1.
  destruct (py_getitem u "id" h) as [[uid|e|] h1] eqn:Hget;
    assert (h1 = h) as ->
      by (revert Hget; unfold py_getitem;
          repeat case_match; intros; simplify_eq; done);
    try done.
  unfold bind, lift. destruct (py_eq uid k) as [[|]|e|]; try done.
Qed.

(** Whatever it returns is None or an element of the list, as listed. *)
Lemma find_loop_returns us k h v h' :
  find_loop us k h = (Val v, h') ->
  v = VNone \/ (v ∈ us /\ id_equal h k v).
Proof.
  induction us as [|u us IH]; simpl.
  - unfold ret. intros [= <- <-]. by left.
  - unfold bind at 1.
    destruct (py_getitem u "id" h) as [[uid|e|] h1] eqn:Hget; try done.
    assert (h1 = h /\ id_of h u = Some uid) as [-> Hid].
    { revert Hget. unfold py_getitem, id_of.
      repeat case_match; intros; simplify_eq; done. }
    unfold bind, lift. destruct (py_eq uid k) as [[|]|e|] eqn:Heq; try done.
    + unfold ret. intros [= <- <-]. right. split; [left|]. by exists uid.
    + intros Hrest. destruct (IH Hrest) as [->|[Hin Hm]]; [by left|].
      right. split; [by right|done].
Qed.

End Find.

(** C2. Let the list object at [l] hold records that each have an [id]
    field comparable with the identifier [k] (any record with an [id]
    field is, when [k] is None, a number or a string).  If some record
    has an [id] equal to [k], [find_user] returns the first such record
    in list order (so the first of several with the same id); if none
    has, in particular when the list is empty, it returns None. *)
Theorem find_user_first_match (h : heap) (l : loc) (us : list val) (k : val) :
  h !! l = Some (OList us) ->
  Forall (id_comparable h k) us ->
  (forall (i : nat) (u : val),
      us !! i = Some u ->
      id_equal h k u ->
      (forall (j : nat) (u' : val),
          (j < i)%nat -> us !! j = Some u' -> ~ id_equal h k u') ->
      find_user (VRef l) k h = (Val u, h))
  /\ ((forall u : val, u ∈ us -> ~ id_equal h k u) ->
      find_user (VRef l) k h = (Val VNone, h))
  /\ (us = [] -> find_user (VRef l) k h = (Val VNone, h)).
Proof.
  intros Hl Hids.
  assert (Hrun : find_user (VRef l) k h = find_loop us k h).
  { unfold find_user, bind, iter_items. by rewrite Hl. }
  rewrite Hrun. split; [|split].
  - intros i u Hi Hu Hfirst.
    rewrite <- (take_drop_middle us i u Hi), find_loop_skip.
    + by apply find_loop_hit.
    + apply Forall_lookup. intros j u' Hj.
      apply lookup_take_Some in Hj as [Hj Hlt].
      apply id_differs_of_not_equal; [|by eapply Hfirst].
      by eapply (proj1 (Forall_lookup _ _) Hids).
  - intros Hnone. rewrite <- (app_nil_r us), find_loop_skip; [done|].
    apply Forall_forall. intros u Hu.
    apply id_differs_of_not_equal; [|by apply Hnone].
    by eapply (proj1 (Forall_forall _ _) Hids).
  - by intros ->.
Qed.

Lemma find_user_first_match_witness :
  find_user (VRef 3%positive) (Sample.int 2) Sample.h_users
  = (Val (VRef 2%positive), Sample.h_users).
Proof.
  destruct (find_user_first_match Sample.h_users 3%positive
              [VRef 1%positive; VRef 2%positive] (Sample.int 2)) as [Hfirst _].
  - reflexivity.
  - apply Forall_cons_2; [|apply Forall_cons_2; [|apply Forall_nil_2]].
    + right. exists (Sample.int 1). split; reflexivity.
    + left. exists (Sample.int 2). split; reflexivity.
  - apply (Hfirst 1%nat (VRef 2%positive)).
    + reflexivity.
    + exists (Sample.int 2). split; reflexivity.
    + intros [|j] u' Hj Hu' (v & Hv & Heq); [|lia].
      injection Hu' as <-. vm_compute in Hv. injection Hv as <-. discriminate Heq.
Defined.

(** C7. When [find_user] returns a record, what it returns is the very
    reference that the list holds: the location of an element of the
    input whose [id] equals the target.  No object is created or changed
    by the call, so the result is that element and not a copy of it. *)
Theorem find_user_returns_element
    (h h' : heap) (l r : loc) (us : list val) (k : val) :
  h !! l = Some (OList us) ->
  find_user (VRef l) k h = (Val (VRef r), h') ->
  VRef r ∈ us /\ id_equal h k (VRef r) /\ h' = h.
Proof.
  intros Hl Hrun.
  assert (Hloop : find_loop us k h = (Val (VRef r), h')).
  { revert Hrun. unfold find_user, bind, iter_items. by rewrite Hl. }
  pose proof (find_loop_heap us k h) as Hh. rewrite Hloop in Hh. simpl in Hh.
  destruct (find_loop_returns _ _ _ _ _ Hloop) as [?|[Hin Hm]]; done.
Qed.

Lemma find_user_returns_element_witness :
  VRef 2%positive ∈ [VRef 2%positive; VRef 1%positive]
  /\ id_equal Sample.h_twins (Sample.int 7) (VRef 2%positive)
  /\ Sample.h_twins = Sample.h_twins.
Proof.
  apply (find_user_returns_element Sample.h_twins Sample.h_twins
           3%positive 2%positive _ (Sample.int 7)); reflexivity.
Defined.

(** C8. The search stops at the first match: when every record before
    position [length pre] has an [id] field different from the target and
    the record at that position has an [id] equal to it, [find_user]
    returns that record whatever follows it in the list, records without
    an [id] field included. *)
Theorem find_user_stops_at_match
    (h : heap) (l : loc) (pre post : list val) (u k : val) :
  h !! l = Some (OList (pre ++ u :: post)) ->
  Forall (id_differs h k) pre ->
  id_equal h k u ->
  find_user (VRef l) k h = (Val u, h).
Proof.
  intros Hl Hpre Hu. unfold find_user, bind, iter_items. rewrite Hl.
  rewrite find_loop_skip by done. by apply find_loop_hit.
Qed.

Lemma find_user_stops_at_match_witness :
  lacks_id Sample.h_ragged (VRef 4%positive)
  /\ find_user (VRef 3%positive) (Sample.int 2) Sample.h_ragged
     = (Val (VRef 2%positive), Sample.h_ragged).
Proof.
  split.
  - exists 4%positive, {[ "name"%string := VStr "z" ]}. repeat split; reflexivity.
  - apply (find_user_stops_at_match Sample.h_ragged 3%positive
             [VRef 1%positive] [VRef 4%positive; VNone]).
    + reflexivity.
    + apply Forall_cons_2; [|apply Forall_nil_2].
      exists (Sample.int 1). split; reflexivity.
    + exists (Sample.int 2). split; reflexivity.
Defined.

(** C9. When a record without an [id] field comes before any record whose
    [id] equals the target, the subscript raises KeyError and the call
    fails with it instead of returning None. *)
Theorem find_user_missing_id
    (h : heap) (l : loc) (pre post : list val) (u k : val) :
  h !! l = Some (OList (pre ++ u :: post)) ->
  Forall (id_differs h k) pre ->
  lacks_id h u ->
  find_user (VRef l) k h = (Exc KeyError, h).
Proof.
  intros Hl Hpre Hu. unfold find_user, bind, iter_items. rewrite Hl.
  rewrite find_loop_skip by done. by apply find_loop_lacks.
Qed.

Lemma find_user_missing_id_witness :
  find_user (VRef 5%positive) (Sample.int 2) Sample.h_ragged
  = (Exc KeyError, Sample.h_ragged).
Proof.
  apply (find_user_missing_id Sample.h_ragged 5%positive
           [VRef 1%positive] [VRef 2%positive] (VRef 4%positive)).
  - reflexivity.
  - apply Forall_cons_2; [|apply Forall_nil_2].
    exists (Sample.int 1). split; reflexivity.
  - exists 4%positive, {[ "name"%string := VStr "z" ]}. repeat split; reflexivity.
Defined.

(** ** Effects on the heap, and dependence on it *)

Section Frame.

Implicit Types (h : heap) (l r : loc) (k u v : val) (items : list val).

Lemma calculate_average_heap v h : (calculate_average v h).2 = h.
Proof.
  unfold calculate_average, bind, iter_items, py_len, lift, ret.
  repeat case_match; simplify_eq; done.
Qed.

Lemma find_user_heap v k h : (find_user v k h).2 = h.
Proof.
  unfold find_user, bind.
  destruct (iter_items v h) as [[us|e|] h1] eqn:Hit;
    assert (h1 = h) as ->
      by (revert Hit; unfold iter_items; repeat case_match;
          intros; simplify_eq; done);
    try done.
  apply find_loop_heap.
Qed.

(** The loop of [process_data] writes to [result] only. *)
Lemma clean_loop_heap items : forall h r l,
  l <> r -> (clean_loop r items h).2 !! l = h !! l.
Proof.
  induction items as [|item items IH]; intros h r l Hne; [done|].
  simpl. destruct (py_ne_None item); [|by apply IH].
  unfold bind at 1.
  destruct (py_strip item h) as [[s|e|] h1] eqn:Hs;
    assert (h1 = h) as ->
      by (revert Hs; unfold py_strip; repeat case_match;
          intros; simplify_eq; done);
    try done.
  unfold bind, list_append.
  destruct (h !! r) as [[acc|fields]|] eqn:Hr; try done.
  rewrite IH by done. by apply lookup_insert_ne.
Qed.

Lemma process_data_heap v h l (o : obj) :
  h !! l = Some o -> (process_data v h).2 !! l = Some o.
Proof.
  intros Hl. set (r := fresh (dom h)).
  assert (Hr : h !! r = None) by apply not_elem_of_dom, is_fresh.
  assert (Hne : l <> r) by (intros ->; congruence).
  unfold process_data, bind at 1, alloc. fold r.
  set (h0 := <[r := OList []]> h).
  assert (H0 : h0 !! l = Some o) by (unfold h0; by rewrite lookup_insert_ne).
  unfold bind at 1.
  destruct (iter_items v h0) as [[items|e|] h1] eqn:Hit;
    assert (h1 = h0) as ->
      by (revert Hit; unfold iter_items; repeat case_match;
          intros; simplify_eq; done);
    try done.
  unfold bind, ret.
  pose proof (clean_loop_heap items h0 r l Hne) as Hloop.
  destruct (clean_loop r items h0) as [[[]|e|] h2]; simpl in *; congruence.
Qed.

Lemma calculate_average_same items h1 h2 l1 l2 :
  h1 !! l1 = Some (OList items) ->
  h2 !! l2 = Some (OList items) ->
  (calculate_average (VRef l1) h1).1 = (calculate_average (VRef l2) h2).1.
Proof.
  intros H1 H2.
  by rewrite (calculate_average_list _ _ _ H1), (calculate_average_list _ _ _ H2).
Qed.

Lemma py_getitem_same u h1 h2 :
  (forall r, u = VRef r -> h1 !! r = h2 !! r) ->
  (py_getitem u "id" h1).1 = (py_getitem u "id" h2).1.
Proof.
  intros Hu. unfold py_getitem. destruct u as [| | |r]; try done.
  rewrite (Hu r eq_refl). repeat case_match; done.
Qed.

Lemma find_loop_same us k h1 h2 :
  (forall r, VRef r ∈ us -> h1 !! r = h2 !! r) ->
  (find_loop us k h1).1 = (find_loop us k h2).1.
Proof.
  induction us as [|u us IH]; intros Hus; [done|].
  simpl. unfold bind at 1 3.
  pose proof (py_getitem_same u h1 h2) as Hget.
  destruct (py_getitem u "id" h1) as [o1 h1'] eqn:E1.
  destruct (py_getitem u "id" h2) as [o2 h2'] eqn:E2.
  assert (h1' = h1) as ->.
  { revert E1. unfold py_getitem. repeat case_match; intros; simplify_eq; done. }
  assert (h2' = h2) as ->.
  { revert E2. unfold py_getitem. repeat case_match; intros; simplify_eq; done. }
  simpl in Hget. rewrite <- Hget by (intros r ->; apply Hus; left).
  destruct o1 as [uid|e|]; try done.
  unfold bind, lift. destruct (py_eq uid k) as [[|]|e|]; try done.
  apply IH. intros r Hr. apply Hus. by right.
Qed.

Lemma find_user_same us k h1 h2 l1 l2 :
  h1 !! l1 = Some (OList us) ->
  h2 !! l2 = Some (OList us) ->
  (forall r, VRef r ∈ us -> h1 !! r = h2 !! r) ->
  (find_user (VRef l1) k h1).1 = (find_user (VRef l2) k h2).1.
Proof.
  intros H1 H2 Hus. unfold find_user, bind, iter_items. rewrite H1, H2.
  by apply find_loop_same.
Qed.

(** Two runs of the loop of [process_data] on the same items, each
    appending to a list with the same items so far, end alike. *)
Lemma clean_loop_same items : forall h1 h2 r1 r2 (acc : list val),
  h1 !! r1 = Some (OList acc) ->
  h2 !! r2 = Some (OList acc) ->
  (forall r, VRef r ∈ items -> is_Some (h1 !! r) /\ is_Some (h2 !! r)) ->
  match clean_loop r1 items h1, clean_loop r2 items h2 with
  | (Val _, h1'), (Val _, h2') =>
      exists out, h1' !! r1 = Some (OList out) /\ h2' !! r2 = Some (OList out)
  | (Exc e1, _), (Exc e2, _) => e1 = e2
  | (Undef, _), (Undef, _) => True
  | _, _ => False
  end.
Proof.
  induction items as [|item items IH]; intros h1 h2 r1 r2 acc H1 H2 Hlive.
  - simpl. by exists acc.
  - assert (Hrest : forall h1' h2' acc',
               (forall r, is_Some (h1 !! r) -> is_Some (h1' !! r)) ->
               (forall r, is_Some (h2 !! r) -> is_Some (h2' !! r)) ->
               h1' !! r1 = Some (OList acc') ->
               h2' !! r2 = Some (OList acc') ->
               match clean_loop r1 items h1', clean_loop r2 items h2' with
               | (Val _, h1''), (Val _, h2'') =>
                   exists out, h1'' !! r1 = Some (OList out)
                               /\ h2'' !! r2 = Some (OList out)
               | (Exc e1, _), (Exc e2, _) => e1 = e2
               | (Undef, _), (Undef, _) => True
               | _, _ => False
               end).
    { intros h1' h2' acc' Hm1 Hm2 H1' H2'. apply (IH _ _ _ _ acc'); [done..|].
      intros r Hr. destruct (Hlive r) as [? ?]; [by right|]. split; eauto. }
    simpl. destruct item as [|n|s|r]; simpl.
    + by apply (Hrest h1 h2 acc).
    + done.
    + unfold bind, py_strip, list_append. rewrite H1, H2.
      apply (Hrest _ _ (acc ++ [VStr (PyStr.strip s)])).
      * intros r. rewrite lookup_insert_is_Some. destruct (decide (r1 = r)); eauto.
      * intros r. rewrite lookup_insert_is_Some. destruct (decide (r2 = r)); eauto.
      * apply lookup_insert_eq.
      * apply lookup_insert_eq.
    + destruct (Hlive r) as [[o1 Ho1] [o2 Ho2]]; [by left|].
      unfold bind, py_strip. by rewrite Ho1, Ho2.
Qed.

Lemma process_data_same items h1 h2 l1 l2 :
  h1 !! l1 = Some (OList items) ->
  h2 !! l2 = Some (OList items) ->
  (forall r, VRef r ∈ items -> is_Some (h1 !! r) /\ is_Some (h2 !! r)) ->
  returned_list (process_data (VRef l1) h1)
  = returned_list (process_data (VRef l2) h2).
Proof.
  intros H1 H2 Hlive.
  set (r1 := fresh (dom h1)). set (r2 := fresh (dom h2)).
  assert (Hr1 : h1 !! r1 = None) by apply not_elem_of_dom, is_fresh.
  assert (Hr2 : h2 !! r2 = None) by apply not_elem_of_dom, is_fresh.
  assert (Hne1 : r1 <> l1) by (intros ->; congruence).
  assert (Hne2 : r2 <> l2) by (intros ->; congruence).
  unfold process_data, bind, alloc, iter_items. fold r1 r2.
  rewrite !lookup_insert_ne, H1, H2 by done.
  assert (Hloop := clean_loop_same items (<[r1 := OList []]> h1)
                     (<[r2 := OList []]> h2) r1 r2 []
                     (lookup_insert_eq _ _ _) (lookup_insert_eq _ _ _)).
  destruct (clean_loop r1 items _) as [[[]|e1|] h1'];
    destruct (clean_loop r2 items _) as [[[]|e2|] h2']; simpl;
    destruct Hloop as [].
  all: try (intros r Hr; destruct (Hlive r Hr) as [? ?];
            rewrite !lookup_insert_is_Some;
            split; [destruct (decide (r1 = r))|destruct (decide (r2 = r))];
            by eauto).
  all: try done.
  destruct H as [-> ->]. done.
Qed.

End Frame.

(** C6. Each of the three functions is a function of its input alone and
    leaves every existing object as it was.  Frame: after a call, whatever
    its argument and outcome, every object of the heap before the call,
    the input list and the objects its items refer to among them, is
    still there unchanged ([calculate_average] and [find_user] leave the
    whole heap as it is; [process_data] only adds its result).
    Determinism: two runs on lists with the same items, in heaps that
    may differ elsewhere, have the same outcome; for [find_user] the
    records referred to are the same in both heaps, and for
    [process_data], whose result is a new object, the items of the two
    results are the same. *)
Theorem functions_pure :
  (forall (v : val) (h : heap), (calculate_average v h).2 = h)
  /\ (forall (v k : val) (h : heap), (find_user v k h).2 = h)
  /\ (forall (v : val) (h : heap) (l : loc) (o : obj),
        h !! l = Some o -> (process_data v h).2 !! l = Some o)
  /\ (forall (items : list val) (h1 h2 : heap) (l1 l2 : loc),
        h1 !! l1 = Some (OList items) ->
        h2 !! l2 = Some (OList items) ->
        (calculate_average (VRef l1) h1).1 = (calculate_average (VRef l2) h2).1)
  /\ (forall (us : list val) (k : val) (h1 h2 : heap) (l1 l2 : loc),
        h1 !! l1 = Some (OList us) ->
        h2 !! l2 = Some (OList us) ->
        (forall r : loc, VRef r ∈ us -> h1 !! r = h2 !! r) ->
        (find_user (VRef l1) k h1).1 = (find_user (VRef l2) k h2).1)
  /\ (forall (items : list val) (h1 h2 : heap) (l1 l2 : loc),
        h1 !! l1 = Some (OList items) ->
        h2 !! l2 = Some (OList items) ->
        (forall r : loc, VRef r ∈ items ->
                         is_Some (h1 !! r) /\ is_Some (h2 !! r)) ->
        returned_list (process_data (VRef l1) h1)
        = returned_list (process_data (VRef l2) h2)).
Proof.
  repeat split.
  - apply calculate_average_heap.
  - apply find_user_heap.
  - apply process_data_heap.
  - apply calculate_average_same.
  - apply find_user_same.
  - apply process_data_same.
Qed.

(** ** The specification's examples *)

Example average_2_4_6 :
  (calculate_average (VRef 1%positive) Sample.h_numbers).1
  = Val (VNum (NFloat (PyNum.of_int 4))).
Proof. reflexivity. Qed.

Example average_mixed_overflow :
  (calculate_average (VRef 1%positive)
     {[ 1%positive := OList [VNum (NFloat (PyNum.of_int 1)); Sample.int (10 ^ 400)] ]}).1
  = Exc OverflowError.
Proof. vm_compute. reflexivity. Qed.

Example find_user_2 :
  (find_user (VRef 3%positive) (Sample.int 2) Sample.h_users).1
  = Val (VRef 2%positive).
Proof. reflexivity. Qed.

Example find_user_5 :
  (find_user (VRef 3%positive) (Sample.int 5) Sample.h_users).1 = Val VNone.
Proof. reflexivity. Qed.

Example find_user_float_id :
  (find_user (VRef 3%positive) (VNum (NFloat (PyNum.of_int 2))) Sample.h_users).1
  = Val (VRef 2%positive).
Proof. reflexivity. Qed.

Example process_data_raw :
  returned_list (process_data (VRef 1%positive) Sample.h_data)
  = Val [VStr "a"; VStr "b"; VStr ""].
Proof. reflexivity. Qed.

Example process_data_zero_item :
  (process_data (VRef 1%positive) {[ 1%positive := OList [Sample.int 0] ]}).1
  = Exc AttributeError.
Proof. reflexivity. Qed.

(** * Further properties *)

(** ** Conversion of small ints *)

Section FloatExact.

Import PyNum.

Lemma digits2_pos_shift (p : positive) (k : positive) :
  digits2_pos (Pos.iter xO p k) = (digits2_pos p + k)%positive.
Proof.
  induction k as [|k IH] using Pos.peano_ind.
  - simpl. lia.
  - rewrite Pos.iter_succ. simpl. rewrite IH. lia.
Qed.

Lemma digits2_pos_upper (p : positive) (k : Z) :
  0 <= k -> Zpos p < 2 ^ k -> Zpos (digits2_pos p) <= k.
Proof.
  intros Hk Hp. pose proof (digits2_pos_lower p) as Hlow.
  destruct (Z_le_gt_dec (Zpos (digits2_pos p)) k) as [|Hgt]; [done|].
  assert (2 ^ k <= 2 ^ (Zpos (digits2_pos p) - 1)) by (apply Z.pow_le_mono_r; lia).
  lia.
Qed.

(** A mantissa of exactly 53 digits is kept as it is. *)
Lemma binary_round_aux_exact (m : positive) (e : Z) :
  Zpos (digits2_pos m) = 53 -> -1074 <= e <= 971 ->
  binary_round_aux prec emax false (Zpos m) e loc_Exact = S754_finite false m e.
Proof.
  intros Hd He.
  assert (Hs : shr_fexp prec emax (Zpos m) e loc_Exact
               = ({| shr_m := Zpos m; shr_r := false; shr_s := false |}, e)).
  { unfold shr_fexp, shr. simpl Zdigits2. rewrite Hd.
    replace (fexp prec emax (53 + e) - e) with 0; [done|].
    unfold fexp, emin, prec, emax. lia. }
  unfold binary_round_aux. rewrite Hs. simpl shr_m. simpl loc_of_shr_record.
  simpl round_nearest_even. rewrite Hs. simpl shr_m.
  replace (e <=? emax - prec) with true; [done|].
  symmetry. apply Z.leb_le. unfold emax, prec. lia.
Qed.

(** An int in [1, 2^53) converts to a finite, non-zero float. *)
Lemma int_to_float_small (p : positive) :
  Zpos p < 2 ^ 53 ->
  exists m e, int_to_float (Zpos p) = Val (S754_finite false m e).
Proof.
  intros Hp. pose proof (digits2_pos_upper p 53 ltac:(lia) Hp) as Hd.
  unfold int_to_float, binary_normalize, binary_round.
  set (d := Zpos (digits2_pos p)) in *.
  assert (Hf : fexp prec emax (d + 0) = d - 53).
  { unfold fexp, emin, prec, emax. lia. }
  rewrite Hf. unfold shl_align.
  destruct (d - 53 - 0) as [|k|k] eqn:Hk; try lia.
  - rewrite binary_round_aux_exact by lia. eauto.
  - rewrite binary_round_aux_exact; [eauto| |lia].
    rewrite digits2_pos_shift. fold d. lia.
Qed.

End FloatExact.

(** ** calculate_average: items that are not numbers, order, floats *)

Section AverageMore.

Implicit Types (N : list num) (h : heap) (l : loc).

Lemma sum_loop_app (t : num) (xs ys : list val) :
  sum_loop t (xs ++ ys)
  = outcome_bind (sum_loop t xs) (fun t' => sum_loop t' ys).
Proof.
  revert t. induction xs as [|x xs IH]; intros t; simpl; [done|].
  destruct (py_add t x) as [t'| |]; simpl; [apply IH|done..].
Qed.

Lemma fold_add_permutation (zs zs' : list Z) :
  zs ≡ₚ zs' -> forall a : Z, fold_left Z.add zs a = fold_left Z.add zs' a.
Proof.
  induction 1 as [|x zs zs' _ IH|x y zs|zs zs' zs'' _ IH1 _ IH2]; intros a; simpl.
  - done.
  - apply IH.
  - f_equal. lia.
  - by rewrite IH1.
Qed.

Lemma fadd_nan_r (x : spec_float) : PyNum.fadd x S754_nan = S754_nan.
Proof. by destruct x. Qed.

Lemma fold_fadd_nan (fs : list spec_float) :
  fold_left PyNum.fadd fs S754_nan = S754_nan.
Proof. induction fs as [|f fs IH]; simpl; [done|exact IH]. Qed.

Lemma fold_fadd_has_nan (fs : list spec_float) (a : spec_float) :
  S754_nan ∈ fs -> fold_left PyNum.fadd fs a = S754_nan.
Proof.
  revert a. induction fs as [|f fs IH]; intros a Hin.
  - by apply elem_of_nil in Hin.
  - simpl. apply elem_of_cons in Hin as [<-|Hin].
    + rewrite fadd_nan_r. apply fold_fadd_nan.
    + by apply IH.
Qed.

(** The average of floats, once the count converts to a float [y]. *)
Lemma calculate_average_floats h l (fs : list spec_float) :
  fs <> [] ->
  Z.of_nat (length fs) < 2 ^ 53 ->
  h !! l = Some (OList (floats fs)) ->
  exists m e,
    PyNum.int_to_float (Z.of_nat (length fs)) = Val (S754_finite false m e)
    /\ calculate_average (VRef l) h
       = (Val (VNum (NFloat (PyNum.fdiv
                               (fold_left PyNum.fadd fs (S754_zero false))
                               (S754_finite false m e)))), h).
Proof.
  intros Hne Hlen Hl. rewrite (calculate_average_list _ _ _ Hl).
  unfold floats. rewrite length_fmap.
  destruct fs as [|f fs]; [done|].
  destruct (Z.of_nat (length (f :: fs))) as [|p|p] eqn:Hp; try (simpl in Hp; lia).
  destruct (int_to_float_small p Hlen) as (m & e & Hconv).
  exists m, e. split; [done|].
  cbn [fmap list_fmap sum_loop py_add].
  change (PyNum.add (NInt 0) (NFloat f))
    with (Val (NFloat (PyNum.fadd (S754_zero false) f))).
  cbn iota. change (list_fmap _ _ ?g fs) with (g <$> fs).
  rewrite sum_loop_floats. simpl. by rewrite Hconv.
Qed.

End AverageMore.

(** X1. An item that is not a number, met while the running total of the
    numbers before it is defined, makes [calculate_average] raise
    TypeError, whatever follows it. *)
Theorem calculate_average_non_number
    (h : heap) (l : loc) (N : list num) (t : num) (v : val) (post : list val) :
  h !! l = Some (OList ((VNum <$> N) ++ v :: post)) ->
  (forall n : num, v <> VNum n) ->
  sum_left N = Val t ->
  calculate_average (VRef l) h = (Exc TypeError, h).
Proof.
  intros Hl Hv Hsum. rewrite (calculate_average_list _ _ _ Hl).
  rewrite sum_loop_app, sum_loop_fold. fold (sum_left N). rewrite Hsum. simpl.
  destruct v as [|n| |]; try done. by destruct (Hv n).
Qed.

Lemma calculate_average_non_number_witness :
  calculate_average (VRef 1%positive) Sample2.h_mixed
  = (Exc TypeError, Sample2.h_mixed).
Proof.
  apply (calculate_average_non_number Sample2.h_mixed 1%positive
           [NInt 1] (NInt 1) VNone [Sample.int 2]).
  - reflexivity.
  - discriminate.
  - reflexivity.
Defined.

(** X2. On ints the order of the items does not matter: two lists of ints
    that are permutations of one another have the same average (the same
    float, or the same exception). *)
Theorem calculate_average_ints_permutation
    (zs zs' : list Z) (h1 h2 : heap) (l1 l2 : loc) :
  zs ≡ₚ zs' ->
  h1 !! l1 = Some (OList (VNum <$> (NInt <$> zs))) ->
  h2 !! l2 = Some (OList (VNum <$> (NInt <$> zs'))) ->
  (calculate_average (VRef l1) h1).1 = (calculate_average (VRef l2) h2).1.
Proof.
  intros Hperm H1 H2.
  rewrite (calculate_average_list _ _ _ H1), (calculate_average_list _ _ _ H2).
  rewrite <- !list_fmap_compose, !length_fmap.
  change (VNum ∘ NInt) with (fun x => VNum (NInt x)).
  rewrite !sum_loop_ints, (fold_add_permutation _ _ Hperm).
  by rewrite (Permutation_length Hperm).
Qed.

Lemma calculate_average_ints_permutation_witness :
  (calculate_average (VRef 1%positive) Sample2.h_perm).1
  = (calculate_average (VRef 2%positive) Sample2.h_perm).1.
Proof.
  apply (calculate_average_ints_permutation [1; 2; 3] [3; 1; 2]).
  - change [3; 1; 2] with ([3] ++ [1; 2]). change [1; 2; 3] with ([1; 2] ++ [3]).
    apply Permutation_app_comm.
  - reflexivity.
  - reflexivity.
Defined.

(** X3. On a non-empty list of fewer than 2^53 floats [calculate_average]
    never raises: it returns the left-to-right binary64 sum divided by
    the count as a float (possibly an infinity or a NaN). *)
Theorem calculate_average_floats_return
    (h : heap) (l : loc) (fs : list spec_float) :
  fs <> [] ->
  Z.of_nat (length fs) < 2 ^ 53 ->
  h !! l = Some (OList (floats fs)) ->
  exists y : spec_float,
    PyNum.int_to_float (Z.of_nat (length fs)) = Val y
    /\ calculate_average (VRef l) h
       = (Val (VNum (NFloat (PyNum.fdiv
                               (fold_left PyNum.fadd fs (S754_zero false)) y))), h).
Proof.
  intros Hne Hlen Hl.
  destruct (calculate_average_floats h l fs Hne Hlen Hl) as (m & e & Hy & Hrun).
  by exists (S754_finite false m e).
Qed.

Lemma calculate_average_floats_return_witness :
  exists y : spec_float,
    PyNum.int_to_float 3 = Val y
    /\ calculate_average (VRef 1%positive) Sample2.h_nan
       = (Val (VNum (NFloat (PyNum.fdiv
                               (fold_left PyNum.fadd
                                  [Sample2.one; S754_nan; Sample2.one]
                                  (S754_zero false)) y))), Sample2.h_nan).
Proof.
  apply (calculate_average_floats_return Sample2.h_nan 1%positive
           [Sample2.one; S754_nan; Sample2.one]).
  - discriminate.
  - reflexivity.
  - reflexivity.
Defined.

(** X4. A NaN anywhere among the floats makes the average NaN. *)
Theorem calculate_average_nan
    (h : heap) (l : loc) (fs : list spec_float) :
  S754_nan ∈ fs ->
  Z.of_nat (length fs) < 2 ^ 53 ->
  h !! l = Some (OList (floats fs)) ->
  calculate_average (VRef l) h = (Val (VNum (NFloat S754_nan)), h).
Proof.
  intros Hin Hlen Hl.
  assert (Hne : fs <> []) by (intros ->; by apply elem_of_nil in Hin).
  destruct (calculate_average_floats h l fs Hne Hlen Hl) as (m & e & _ & ->).
  by rewrite (fold_fadd_has_nan _ _ Hin).
Qed.

Lemma calculate_average_nan_witness :
  calculate_average (VRef 1%positive) Sample2.h_nan
  = (Val (VNum (NFloat S754_nan)), Sample2.h_nan).
Proof.
  apply (calculate_average_nan Sample2.h_nan 1%positive
           [Sample2.one; S754_nan; Sample2.one]).
  - apply list_elem_of_further, list_elem_of_here.
  - reflexivity.
  - reflexivity.
Defined.

(** ** find_user: a None result, elements that are not records, concatenation *)

Section FindMore.

Implicit Types (h : heap) (l r : loc) (k u v : val) (us : list val).

(** A subscript that succeeds was applied to a record with that [id]. *)
Lemma py_getitem_Val h u v h' :
  py_getitem u "id" h = (Val v, h') -> h' = h /\ id_of h u = Some v.
Proof.
  unfold py_getitem, id_of. repeat case_match; intros; simplify_eq; done.
Qed.

Lemma find_loop_None us k h h' :
  find_loop us k h = (Val VNone, h') -> Forall (id_differs h k) us.
Proof.
  induction us as [|u us IH]; [by constructor|]. simpl. unfold bind at 1.
  destruct (py_getitem u "id" h) as [[uid|e|] h1] eqn:Hget; try done.
  apply py_getitem_Val in Hget as [-> Hid].
  unfold bind, lift. destruct (py_eq uid k) as [[|]|e|] eqn:Heq; try done.
  - unfold ret. intros [= -> _]. discriminate Hid.
  - intros Hrest. constructor; [by exists uid|by apply IH].
Qed.

Lemma find_loop_not_subscriptable h k u us :
  not_subscriptable h u -> find_loop (u :: us) k h = (Exc TypeError, h).
Proof.
  intros Hu. simpl. unfold bind at 1, py_getitem.
  destruct u as [| | |r]; try done. destruct Hu as [items ->]. done.
Qed.

Lemma find_loop_app us1 us2 k h :
  find_loop (us1 ++ us2) k h
  = match find_loop us1 k h with
    | (Val VNone, _) => find_loop us2 k h
    | res => res
    end.
Proof.
  induction us1 as [|u us1 IH]; [done|].
  rewrite <- app_comm_cons. simpl. unfold bind at 1 3.
  destruct (py_getitem u "id" h) as [[uid|e|] h1] eqn:Hget; try done.
  apply py_getitem_Val in Hget as [-> Hid].
  unfold bind, lift. destruct (py_eq uid k) as [[|]|e|]; try done.
  unfold ret. destruct u; try done.
Qed.

End FindMore.

(** X5. When [find_user] returns None, nothing was missed: every element
    of the list is a record with an [id] field, and no [id] equals the
    target. *)
Theorem find_user_None_no_match
    (h h' : heap) (l : loc) (us : list val) (k : val) :
  h !! l = Some (OList us) ->
  find_user (VRef l) k h = (Val VNone, h') ->
  Forall (id_differs h k) us.
Proof.
  intros Hl. unfold find_user, bind, iter_items. rewrite Hl.
  apply find_loop_None.
Qed.

Lemma find_user_None_no_match_witness :
  Forall (id_differs Sample.h_users (Sample.int 5))
    [VRef 1%positive; VRef 2%positive].
Proof.
  apply (find_user_None_no_match Sample.h_users Sample.h_users 3%positive).
  - reflexivity.
  - reflexivity.
Defined.

(** X6. An element that is not a dict (None, a number, a string or a
    list), met before any record whose [id] equals the target, makes
    [find_user] raise TypeError, even if a matching record follows. *)
Theorem find_user_not_a_record
    (h : heap) (l : loc) (pre post : list val) (u k : val) :
  h !! l = Some (OList (pre ++ u :: post)) ->
  Forall (id_differs h k) pre ->
  not_subscriptable h u ->
  find_user (VRef l) k h = (Exc TypeError, h).
Proof.
  intros Hl Hpre Hu. unfold find_user, bind, iter_items. rewrite Hl.
  rewrite find_loop_skip by done. by apply find_loop_not_subscriptable.
Qed.

Lemma find_user_not_a_record_witness :
  find_user (VRef 3%positive) (Sample.int 2) Sample2.h_holed
  = (Exc TypeError, Sample2.h_holed).
Proof.
  apply (find_user_not_a_record Sample2.h_holed 3%positive
           [VRef 1%positive] [VRef 2%positive] VNone).
  - reflexivity.
  - apply Forall_cons_2; [|apply Forall_nil_2].
    exists (Sample.int 1). split; reflexivity.
  - exact Logic.I.
Defined.

(** X7. Searching a concatenation is searching its first part and, only
    if that returns None, its second part: a match or an exception in the
    first part decides the call. *)
Theorem find_user_concat
    (h : heap) (l l1 l2 : loc) (us1 us2 : list val) (k : val) :
  h !! l1 = Some (OList us1) ->
  h !! l2 = Some (OList us2) ->
  h !! l = Some (OList (us1 ++ us2)) ->
  find_user (VRef l) k h
  = match find_user (VRef l1) k h with
    | (Val VNone, _) => find_user (VRef l2) k h
    | res => res
    end.
Proof.
  intros H1 H2 Hl. unfold find_user, bind, iter_items. rewrite H1, H2, Hl.
  apply find_loop_app.
Qed.

Lemma find_user_concat_witness :
  find_user (VRef 5%positive) (Sample.int 2) Sample2.h_parts
  = (Val (VRef 2%positive), Sample2.h_parts).
Proof.
  rewrite (find_user_concat Sample2.h_parts 5%positive 3%positive 4%positive
             [VRef 1%positive] [VRef 2%positive]); reflexivity.
Defined.

(** ** process_data: items without strip, aliasing, concatenation, fixed points *)

Section CleanMore.

Implicit Types (I J : list (option string)) (h : heap) (l r : loc).

Lemma clean_loop_app (xs ys : list val) r h :
  clean_loop r (xs ++ ys) h
  = match clean_loop r xs h with
    | (Val _, h') => clean_loop r ys h'
    | res => res
    end.
Proof.
  revert h. induction xs as [|x xs IH]; intros h; [done|].
  rewrite <- app_comm_cons. simpl.
  destruct (py_ne_None x); [|apply IH].
  unfold bind.
  destruct (py_strip x h) as [[s|e|] h1]; try done.
  destruct (list_append r s h1) as [[[]|e|] h2]; try done.
Qed.

Lemma clean_loop_no_strip (v : val) (post : list val) r h :
  no_strip h v -> (clean_loop r (v :: post) h).1 = Exc AttributeError.
Proof.
  intros Hv. simpl. destruct v as [|n|s|r']; try done.
  simpl. unfold bind, py_strip. destruct Hv as [o ->]. done.
Qed.

Lemma no_strip_insert h r (o : obj) (v : val) :
  no_strip h v -> no_strip (<[r := o]> h) v.
Proof.
  destruct v as [|n|s|r']; try done. simpl. rewrite lookup_insert_is_Some.
  destruct (decide (r = r')); eauto.
Qed.

Lemma strip_all_space (s : string) :
  PyStr.all_space s = true -> PyStr.strip s = EmptyString.
Proof. intros Hs. unfold PyStr.strip. by rewrite (lstrip_all_space _ Hs). Qed.

Lemma cleaned_trimmed (ss : list string) :
  Forall is_trimmed ss -> cleaned (Some <$> ss) = ss.
Proof.
  unfold cleaned. induction 1 as [|s ss [Hh Hl] _ IH]; csimpl; [done|].
  rewrite (strip_fixed _ Hh Hl). f_equal. exact IH.
Qed.

End CleanMore.

(** X8. A present item that has no [strip] method (a number, even the
    falsy 0, or a list or dict), met after absent-or-string items, makes
    [process_data] raise AttributeError, whatever follows it. *)
Theorem process_data_no_strip
    (h : heap) (l : loc) (I : list (option string)) (v : val) (post : list val) :
  h !! l = Some (OList ((opt_item <$> I) ++ v :: post)) ->
  no_strip h v ->
  (process_data (VRef l) h).1 = Exc AttributeError.
Proof.
  intros Hl Hv. set (r := fresh (dom h)).
  assert (Hr : h !! r = None) by apply not_elem_of_dom, is_fresh.
  assert (Hne : r <> l) by (intros ->; congruence).
  unfold process_data, bind, alloc, iter_items. fold r.
  rewrite lookup_insert_ne, Hl by done.
  rewrite clean_loop_app.
  rewrite (clean_loop_items I _ r []) by apply lookup_insert_eq.
  rewrite insert_insert_eq.
  pose proof (clean_loop_no_strip v post r _
                (no_strip_insert h r (OList ([] ++ (VStr <$> cleaned I))) v Hv))
    as Hloop.
  destruct (clean_loop r (v :: post) _) as [[[]|e|] h2]; simpl in *;
    congruence.
Qed.

Lemma process_data_no_strip_witness :
  (process_data (VRef 1%positive) Sample2.h_zero).1 = Exc AttributeError.
Proof.
  apply (process_data_no_strip Sample2.h_zero 1%positive
           [Some "a "%string] (Sample.int 0) []).
  - reflexivity.
  - exact Logic.I.
Defined.

(** X9. The list [process_data] returns is a new object, not the input:
    appending to the result afterwards leaves the input list as it was,
    and appending to the input leaves the result as it was. *)
Theorem process_data_result_independent
    (h h1 : heap) (l r : loc) (I : list (option string)) (x : val) :
  h !! l = Some (OList (opt_item <$> I)) ->
  process_data (VRef l) h = (Val (VRef r), h1) ->
  r <> l
  /\ (list_append r x h1).2 !! r = Some (OList ((VStr <$> cleaned I) ++ [x]))
  /\ (list_append r x h1).2 !! l = Some (OList (opt_item <$> I))
  /\ (list_append l x h1).2 !! l = Some (OList ((opt_item <$> I) ++ [x]))
  /\ (list_append l x h1).2 !! r = Some (OList (VStr <$> cleaned I)).
Proof.
  intros Hl Hrun. rewrite (process_data_run _ _ _ Hl) in Hrun.
  injection Hrun as <- <-. set (r := fresh (dom h)).
  assert (Hr : h !! r = None) by apply not_elem_of_dom, is_fresh.
  assert (Hne : r <> l) by (intros ->; congruence).
  assert (H1r : <[r := OList (VStr <$> cleaned I)]> h !! r
                = Some (OList (VStr <$> cleaned I))) by apply lookup_insert_eq.
  assert (H1l : <[r := OList (VStr <$> cleaned I)]> h !! l
                = Some (OList (opt_item <$> I))) by by rewrite lookup_insert_ne.
  split; [done|]. unfold list_append. rewrite H1r, H1l. simpl.
  repeat split.
  - apply lookup_insert_eq.
  - by rewrite lookup_insert_ne.
  - apply lookup_insert_eq.
  - by rewrite lookup_insert_ne.
Qed.

Lemma process_data_result_independent_witness :
  exists r h1,
    process_data (VRef 1%positive) Sample.h_data = (Val (VRef r), h1)
    /\ r <> 1%positive
    /\ (list_append r VNone h1).2 !! 1%positive
       = Some (OList (opt_item <$> Sample.raw)).
Proof.
  exists 2%positive, (process_data (VRef 1%positive) Sample.h_data).2.
  destruct (process_data_result_independent Sample.h_data
              (process_data (VRef 1%positive) Sample.h_data).2
              1%positive 2%positive Sample.raw VNone) as (Hne & _ & Hl & _).
  - reflexivity.
  - reflexivity.
  - split; [reflexivity|]. split; [exact Hne|exact Hl].
Defined.

(** X10. Cleaning a concatenation gives the concatenation of the cleaned
    parts: the items returned for [I ++ J] are those returned for [I]
    followed by those returned for [J]. *)
Theorem process_data_concat
    (h : heap) (l l1 l2 : loc) (I J : list (option string)) :
  h !! l1 = Some (OList (opt_item <$> I)) ->
  h !! l2 = Some (OList (opt_item <$> J)) ->
  h !! l = Some (OList (opt_item <$> (I ++ J))) ->
  exists a b : list val,
    returned_list (process_data (VRef l1) h) = Val a
    /\ returned_list (process_data (VRef l2) h) = Val b
    /\ returned_list (process_data (VRef l) h) = Val (a ++ b).
Proof.
  intros H1 H2 Hl. exists (VStr <$> cleaned I), (VStr <$> cleaned J).
  rewrite (process_data_run _ _ _ H1), (process_data_run _ _ _ H2),
    (process_data_run _ _ _ Hl).
  unfold returned_list. rewrite !lookup_insert_eq.
  by rewrite cleaned_app, fmap_app.
Qed.

Lemma process_data_concat_witness :
  exists a b : list val,
    returned_list (process_data (VRef 1%positive) Sample2.h_cat) = Val a
    /\ returned_list (process_data (VRef 2%positive) Sample2.h_cat) = Val b
    /\ returned_list (process_data (VRef 3%positive) Sample2.h_cat) = Val (a ++ b).
Proof.
  apply (process_data_concat Sample2.h_cat 3%positive 1%positive 2%positive
           Sample2.part1 Sample2.part2); reflexivity.
Defined.

(** X11. On a list of strings that are all already trimmed,
    [process_data] makes a copy: it returns a new list object, distinct
    from the input, holding the same strings in the same order. *)
Theorem process_data_trimmed_copy (h : heap) (l : loc) (ss : list string) :
  Forall is_trimmed ss ->
  h !! l = Some (OList (VStr <$> ss)) ->
  exists (r : loc) (h1 : heap),
    process_data (VRef l) h = (Val (VRef r), h1)
    /\ r <> l
    /\ h1 !! r = Some (OList (VStr <$> ss))
    /\ h1 !! l = Some (OList (VStr <$> ss)).
Proof.
  intros Hss Hl. set (r := fresh (dom h)).
  assert (Hr : h !! r = None) by apply not_elem_of_dom, is_fresh.
  assert (Hne : r <> l) by (intros ->; congruence).
  assert (Hl' : h !! l = Some (OList (opt_item <$> (Some <$> ss)))).
  { by rewrite <- list_fmap_compose. }
  exists r, (<[r := OList (VStr <$> ss)]> h).
  rewrite (process_data_run _ _ _ Hl'), (cleaned_trimmed _ Hss). fold r.
  split; [done|]. split; [done|].
  by rewrite lookup_insert_eq, lookup_insert_ne.
Qed.

Lemma process_data_trimmed_copy_witness :
  exists (r : loc) (h1 : heap),
    process_data (VRef 1%positive) Sample2.h_tidy = (Val (VRef r), h1)
    /\ r <> 1%positive
    /\ h1 !! r = Some (OList (VStr <$> ["a"; "b c"]%string))
    /\ h1 !! 1%positive = Some (OList (VStr <$> ["a"; "b c"]%string)).
Proof.
  apply (process_data_trimmed_copy Sample2.h_tidy 1%positive ["a"; "b c"]%string).
  - apply Forall_cons_2; [|apply Forall_cons_2; [|apply Forall_nil_2]];
      split; reflexivity.
  - reflexivity.
Defined.

(** X12. A string made only of whitespace is kept, as the empty string:
    it is not dropped like an absent item. *)
Theorem process_data_blank_kept
    (h : heap) (l : loc) (I J : list (option string)) (s : string) :
  h !! l = Some (OList (opt_item <$> (I ++ Some s :: J))) ->
  PyStr.all_space s = true ->
  returned_list (process_data (VRef l) h)
  = Val (VStr <$> (cleaned I ++ ""%string :: cleaned J)).
Proof.
  intros Hl Hs. rewrite (process_data_run _ _ _ Hl).
  unfold returned_list. rewrite lookup_insert_eq, cleaned_app.
  change (cleaned (Some s :: J)) with (PyStr.strip s :: cleaned J).
  by rewrite (strip_all_space _ Hs).
Qed.

Lemma process_data_blank_kept_witness :
  returned_list (process_data (VRef 1%positive) Sample2.h_blank)
  = Val [VStr "a"; VStr ""].
Proof.
  apply (process_data_blank_kept Sample2.h_blank 1%positive
           [Some "a"%string] [None]
           (String " " (String "009" EmptyString))).
  - reflexivity.
  - reflexivity.
Defined.
